(** * reorder_migration.py: moving a block of a SQL migration file

    The script reads [supabase/migrations/20260120120000_lovable_export.sql]
    as a list of lines, cuts the list at three line offsets into [part1],
    [part2], [middle] and [rest], writes back
    [part1 + middle + part2 + rest] and prints a confirmation.

    The embedding follows the script statement by statement:
    - Python integers are [Z]; a list slice [l[a:b]] is evaluated the way
      the interpreter does it (indices adjusted against the length, then the
      items copied one by one, each read being bounds-checked);
    - exceptions are values of [exn], carried by the [result] type;
    - the filesystem and standard output are an explicit [world] threaded
      through a state-and-exception monad [M]. *)

From stdpp Require Import gmap strings list fin_maps.
From Stdlib Require Import ZArith Lia.

Open Scope Z_scope.

(** ** Exceptions and results *)

Inductive exn : Type :=
  | IndexError
  | FileNotFoundError
  | PermissionError.

Inductive result (T : Type) : Type :=
  | Ok (v : T)
  | Raise (e : exn).

Arguments Ok {T} v.
Arguments Raise {T} e.

#[global] Instance result_ret : MRet result := λ T v, Ok v.

#[global] Instance result_bind : MBind result := λ T U k r,
  match r with
  | Ok v => k v
  | Raise e => Raise e
  end.

(** [FileNotFoundError] and [PermissionError] are both subclasses of
    Python's [OSError]; [IndexError] is not. *)
Definition is_OSError (e : exn) : bool :=
  match e with
  | IndexError => false
  | FileNotFoundError | PermissionError => true
  end.

(** ** List slicing

    [l[start:stop]] with step 1.  A missing bound is [None].  The
    interpreter first adjusts both bounds against the length of the list
    (a negative bound counts from the end, anything still outside is
    clamped), computes the number of items, and then copies that many
    items starting at the adjusted start. *)

Module Slice.

Definition adjust_index (len i : Z) : Z :=
  if i <? 0 then
    (if i + len <? 0 then 0 else i + len)
  else if len <=? i then len
  else i.

Definition slice_length (start stop : Z) : Z :=
  if start <? stop then (stop - start - 1) / 1 + 1 else 0.

(** One bounds-checked read of the item stored at position [i]. *)
Definition item_at {T} (l : list T) (i : Z) : result T :=
  if i <? 0 then Raise IndexError
  else match l !! Z.to_nat i with
       | Some x => Ok x
       | None => Raise IndexError
       end.

Fixpoint copy_items {T} (l : list T) (start : Z) (n : nat) : result (list T) :=
  match n with
  | O => Ok []
  | S n' =>
      x ← item_at l start;
      xs ← copy_items l (start + 1) n';
      Ok (x :: xs)
  end.

Definition start_index (len : Z) (start : option Z) : Z :=
  match start with
  | None => 0
  | Some i => adjust_index len i
  end.

Definition stop_index (len : Z) (stop : option Z) : Z :=
  match stop with
  | None => len
  | Some i => adjust_index len i
  end.

Definition slice {T} (l : list T) (start stop : option Z) : result (list T) :=
  let len := Z.of_nat (length l) in
  let s := start_index len start in
  let e := stop_index len stop in
  copy_items l s (Z.to_nat (slice_length s e)).

End Slice.

(** ** The reordering

    The three offsets are constants of the script; the segment
    definitions take them as arguments so that they can be studied for
    any offsets, and [main] below instantiates them. *)

Definition idx_part2 : Z := 46 - 1.
Definition idx_part3 : Z := 183 - 1.
Definition idx_part11 : Z := 885 - 1.

Section Reorder.
Context {T : Type}.
Variable lines : list T.
Variables a b c : Z.

(* part1 = lines[:idx_part2] *)
Definition part1 : result (list T) := Slice.slice lines None (Some a).
(* part2 = lines[idx_part2:idx_part3] *)
Definition part2 : result (list T) := Slice.slice lines (Some a) (Some b).
(* middle = lines[idx_part3:idx_part11] *)
Definition middle : result (list T) := Slice.slice lines (Some b) (Some c).
(* rest = lines[idx_part11:] *)
Definition rest : result (list T) := Slice.slice lines (Some c) None.

(* new_content = part1 + middle + part2 + rest *)
Definition new_content : result (list T) :=
  p1 ← part1;
  p2 ← part2;
  m ← middle;
  r ← rest;
  Ok (((p1 ++ m) ++ p2) ++ r).
End Reorder.

Arguments part1 {T} lines a.
Arguments part2 {T} lines a b.
Arguments middle {T} lines b c.
Arguments rest {T} lines c.
Arguments new_content {T} lines a b c.

(** ** Files, standard output and the script

    A file holds the text that Python's text layer delivers and accepts
    (decoding and newline translation are below this model), and two
    permission bits. *)

Record file : Type := File {
  content : string;
  readable : bool;
  writable : bool;
}.

Record world : Type := World {
  fs : gmap string file;
  stdout : string;
}.

Definition M (T : Type) : Type := world → world * result T.

#[global] Instance M_ret : MRet M := λ T v w, (w, Ok v).

#[global] Instance M_bind : MBind M := λ T U k m w,
  match m w with
  | (w', Ok v) => k v w'
  | (w', Raise e) => (w', Raise e)
  end.

Definition lift {T} (r : result T) : M T := λ w, (w, r).

Definition newline : Ascii.ascii := Ascii.ascii_of_nat 10.

(** [f.readlines()]: the text cut after every newline, terminators kept;
    a last line without terminator is a line too. *)
Fixpoint readlines (s : string) : list string :=
  match s with
  | EmptyString => []
  | String ch s' =>
      if Ascii.eqb ch newline then String ch EmptyString :: readlines s'
      else match readlines s' with
           | [] => [String ch EmptyString]
           | l :: ls => String ch l :: ls
           end
  end.

(** [open(path, 'r')] followed by reading the whole file. *)
Definition open_r (path : string) : M string := λ w,
  match fs w !! path with
  | None => (w, Raise FileNotFoundError)
  | Some f =>
      if readable f then (w, Ok (content f))
      else (w, Raise PermissionError)
  end.

(** [open(path, 'w')]: an existing file is truncated, a missing one is
    created empty. *)
Definition open_w (path : string) : M unit := λ w,
  match fs w !! path with
  | None =>
      (World (<[path := File EmptyString true true]> (fs w)) (stdout w), Ok ())
  | Some f =>
      if writable f then
        (World (<[path := File EmptyString (readable f) (writable f)]> (fs w))
               (stdout w), Ok ())
      else (w, Raise PermissionError)
  end.

(** [f.writelines(ls)] on a file opened by [open_w]: every string is
    appended as it is. *)
Definition write (path : string) (s : string) : M unit := λ w,
  match fs w !! path with
  | None => (w, Ok ())
  | Some f =>
      (World (<[path := File (content f +:+ s) (readable f) (writable f)]>
                (fs w)) (stdout w), Ok ())
  end.

Fixpoint writelines (path : string) (ls : list string) : M unit :=
  match ls with
  | [] => mret ()
  | l :: ls' => write path l;; writelines path ls'
  end.

(** [print(s)] *)
Definition print (s : string) : M unit := λ w,
  (World (fs w) (stdout w +:+ s +:+ String newline EmptyString), Ok ()).

Definition filepath : string :=
  "supabase/migrations/20260120120000_lovable_export.sql".

Definition main : M unit :=
  text ← open_r filepath;
  let lines := readlines text in
  content' ← lift (new_content lines idx_part2 idx_part3 idx_part11);
  open_w filepath;;
  writelines filepath content';;
  print "Successfully reordered migration file.".

(** The text written by [writelines]: the strings one after the other. *)
Definition joined (ls : list string) : string := foldr String.append "" ls.

(** The line that [print] leaves on standard output. *)
Definition message : string :=
  "Successfully reordered migration file." +:+ String newline "".

(** A complete line: some characters other than newline, then one
    newline. *)
Fixpoint complete_line (l : string) : bool :=
  match l with
  | EmptyString => false
  | String ch l' =>
      match l' with
      | EmptyString => Ascii.eqb ch newline
      | String _ _ => negb (Ascii.eqb ch newline) && complete_line l'
      end
  end.

(** A text that is empty or ends with a newline. *)
Fixpoint terminated_text (s : string) : bool :=
  match s with
  | EmptyString => true
  | String ch s' =>
      match s' with
      | EmptyString => Ascii.eqb ch newline
      | String _ _ => terminated_text s'
      end
  end.

(** ** Half-open ranges of a list

    [range l i j] is the reference notion of the lines at positions
    [i ≤ k < j], written without any reference to how a slice is
    evaluated. *)

Definition range {T} (l : list T) (i j : nat) : list T :=
  take (j - i) (drop i l).

(** The boundary invariant [0 ≤ A ≤ B ≤ C ≤ length]. *)
Definition invariant (len a b c : Z) : Prop :=
  0 ≤ a ∧ a ≤ b ∧ b ≤ c ∧ c ≤ len.

(** ** Sample inputs *)

Definition ten_lines : list string :=
  ["l0"; "l1"; "l2"; "l3"; "l4"; "l5"; "l6"; "l7"; "l8"; "l9"].

Definition no_file : world := World ∅ "".

Definition locked_file : world :=
  World {[ filepath := File "select 1;" false true ]} "".

Definition three_line_file : world :=
  World {[ filepath :=
             File ("create table a;" +:+ String newline
                     ("create table b;" +:+ String newline
                        ("create table c;" +:+ String newline "")))
                  true true ]} "".

Definition three_lines_text : string :=
  "create table a;" +:+ String newline
    ("create table b;" +:+ String newline
       ("create table c;" +:+ String newline "")).


Definition long_text : string :=
  joined (replicate 900 ("select 1;" +:+ String newline "")).

Definition long_file : world :=
  World {[ filepath := File long_text true true ]} "".

(** ** Facts about ranges *)

Section RangeFacts.
Context {T : Type}.
Implicit Types l x y z w : list T.

Lemma range_lookup l i j k :
  range l i j !! k = if decide (k < j - i)%nat then l !! (i + k)%nat else None.
Proof.
  unfold range. case_decide.
  - rewrite lookup_take_lt by done. apply lookup_drop.
  - apply lookup_take_ge. lia.
Qed.

Lemma range_length l i j :
  (j ≤ length l)%nat → length (range l i j) = (j - i)%nat.
Proof. intros ?. unfold range. rewrite length_take, length_drop. lia. Qed.

Lemma range_from_0 l j : range l 0 j = take j l.
Proof. unfold range. by rewrite Nat.sub_0_r. Qed.

Lemma range_to_end l i : range l i (length l) = drop i l.
Proof. unfold range. rewrite <- length_drop. apply firstn_all. Qed.

Lemma range_empty l i j : (j ≤ i)%nat → range l i j = [].
Proof. intros ?. unfold range. by replace (j - i)%nat with 0%nat by lia. Qed.

(** Two adjacent ranges glue into one. *)
Lemma range_glue l i j k :
  (i ≤ j ≤ k)%nat → range l i j ++ range l j k = range l i k.
Proof.
  intros ?. unfold range.
  replace (drop j l) with (drop (j - i) (drop i l))
    by (rewrite drop_drop; f_equal; lia).
  rewrite take_take_drop. f_equal. lia.
Qed.

(** Any three cut points in order split a list into four ranges. *)
Lemma range_split4 l i j k :
  (i ≤ j ≤ k)%nat → (k ≤ length l)%nat →
  take i l ++ range l i j ++ range l j k ++ drop k l = l.
Proof.
  intros ? ?.
  rewrite <- range_from_0, <- (range_to_end l k).
  rewrite (range_glue l j k) by lia.
  rewrite (range_glue l i j) by lia.
  rewrite (range_glue l 0 i) by lia.
  rewrite range_to_end. done.
Qed.

(** Conversely the four pieces of a concatenation are its ranges. *)
Lemma range_app4_1 x y z w : take (length x) (x ++ y ++ z ++ w) = x.
Proof. apply take_app_length. Qed.

Lemma range_app4_2 x y z w :
  range (x ++ y ++ z ++ w) (length x) (length x + length y) = y.
Proof.
  unfold range. rewrite drop_app_length.
  replace (length x + length y - length x)%nat with (length y) by lia.
  apply take_app_length.
Qed.

Lemma range_app4_3 x y z w :
  range (x ++ y ++ z ++ w) (length x + length y)
        (length x + length y + length z) = z.
Proof.
  unfold range.
  rewrite <- drop_drop, !drop_app_length.
  replace (length x + length y + length z - (length x + length y))%nat
    with (length z) by lia.
  apply take_app_length.
Qed.

Lemma range_app4_4 x y z w :
  drop (length x + length y + length z) (x ++ y ++ z ++ w) = w.
Proof. by rewrite <- !drop_drop, !drop_app_length. Qed.

Lemma elem_of_drop_le l (i j : nat) (v : T) :
  (i ≤ j)%nat → v ∈ drop j l → v ∈ drop i l.
Proof.
  intros ? Hv.
  replace j with (i + (j - i))%nat in Hv by lia.
  rewrite <- drop_drop in Hv.
  by apply (subseteq_drop (j - i) (drop i l)).
Qed.
End RangeFacts.

(** ** Slices never fault and compute ranges *)

Section SliceFacts.
Context {T : Type}.
Implicit Types l : list T.

Lemma adjust_index_bounds len i :
  0 ≤ len → 0 ≤ Slice.adjust_index len i ≤ len.
Proof.
  intros ?. unfold Slice.adjust_index.
  destruct (Z.ltb_spec i 0), (Z.ltb_spec (i + len) 0),
    (Z.leb_spec len i); lia.
Qed.

Lemma adjust_index_in_range len i :
  0 ≤ i ≤ len → Slice.adjust_index len i = i.
Proof.
  intros ?. unfold Slice.adjust_index.
  destruct (Z.ltb_spec i 0), (Z.ltb_spec (i + len) 0),
    (Z.leb_spec len i); lia.
Qed.

Lemma slice_length_max s e : Slice.slice_length s e = Z.max 0 (e - s).
Proof.
  unfold Slice.slice_length. rewrite Z.div_1_r.
  destruct (Z.ltb_spec s e); lia.
Qed.

(** Every read of the copy is inside the list as soon as the copied
    window is. *)
Lemma copy_items_ok l s n :
  0 ≤ s → (Z.to_nat s + n ≤ length l)%nat →
  Slice.copy_items l s n = Ok (take n (drop (Z.to_nat s) l)).
Proof.
  revert s. induction n as [|n IH]; intros s Hs Hn; simpl.
  - done.
  - unfold Slice.item_at.
    destruct (Z.ltb_spec s 0) as [?|_]; [lia|].
    destruct (l !! Z.to_nat s) as [x|] eqn:Hx.
    + simpl. rewrite IH by lia. simpl.
      rewrite (drop_S l x (Z.to_nat s)) by done. simpl.
      by replace (Z.to_nat (s + 1)) with (S (Z.to_nat s)) by lia.
    + apply lookup_ge_None in Hx. lia.
Qed.

Lemma slice_total l start stop :
  let len := Z.of_nat (length l) in
  Slice.slice l start stop =
    Ok (range l (Z.to_nat (Slice.start_index len start))
                (Z.to_nat (Slice.stop_index len stop))).
Proof.
  intros len. unfold Slice.slice. fold len.
  set (s := Slice.start_index len start).
  set (e := Slice.stop_index len stop).
  assert (0 ≤ s ≤ len) as Hs.
  { subst s. destruct start; simpl; [apply adjust_index_bounds|]; lia. }
  assert (0 ≤ e ≤ len) as He.
  { subst e. destruct stop; simpl; [apply adjust_index_bounds|]; lia. }
  rewrite slice_length_max, copy_items_ok by lia.
  unfold range. do 2 f_equal. lia.
Qed.
End SliceFacts.

(** ** The reordering, for arbitrary and for valid offsets *)

Section ReorderFacts.
Context {T : Type}.
Implicit Types lines out : list T.

(** Whatever the offsets, the four slices succeed and [new_content] is
    the concatenation of four ranges taken at the adjusted offsets. *)
Lemma new_content_total lines a b c :
  let len := Z.of_nat (length lines) in
  let a' := Z.to_nat (Slice.adjust_index len a) in
  let b' := Z.to_nat (Slice.adjust_index len b) in
  let c' := Z.to_nat (Slice.adjust_index len c) in
  new_content lines a b c =
    Ok (take a' lines ++ range lines b' c' ++ range lines a' b'
          ++ drop c' lines).
Proof.
  intros len a' b' c'.
  unfold new_content, part1, part2, middle, rest.
  rewrite !slice_total. simpl. fold len a' b' c'.
  change (Z.to_nat 0) with 0%nat. unfold len at 1.
  rewrite Nat2Z.id, range_from_0, range_to_end.
  by rewrite <- !app_assoc.
Qed.

Lemma new_content_valid lines a b c :
  invariant (Z.of_nat (length lines)) a b c →
  new_content lines a b c =
    Ok (take (Z.to_nat a) lines
          ++ range lines (Z.to_nat b) (Z.to_nat c)
          ++ range lines (Z.to_nat a) (Z.to_nat b)
          ++ drop (Z.to_nat c) lines).
Proof.
  intros (?&?&?&?). rewrite new_content_total.
  by rewrite !adjust_index_in_range by lia.
Qed.

(** Under the invariant the input and the output are built from the
    same four pieces [p1], [p2], [m], [r] of known lengths. *)
Lemma new_content_pieces lines a b c :
  invariant (Z.of_nat (length lines)) a b c →
  ∃ p1 p2 m r,
    lines = p1 ++ p2 ++ m ++ r ∧
    new_content lines a b c = Ok (p1 ++ m ++ p2 ++ r) ∧
    length p1 = Z.to_nat a ∧
    (length p1 + length p2)%nat = Z.to_nat b ∧
    (length p1 + length p2 + length m)%nat = Z.to_nat c ∧
    p1 = take (Z.to_nat a) lines ∧
    p2 = range lines (Z.to_nat a) (Z.to_nat b) ∧
    m = range lines (Z.to_nat b) (Z.to_nat c) ∧
    r = drop (Z.to_nat c) lines.
Proof.
  intros Hinv. pose proof Hinv as (?&?&?&?).
  exists (take (Z.to_nat a) lines),
    (range lines (Z.to_nat a) (Z.to_nat b)),
    (range lines (Z.to_nat b) (Z.to_nat c)),
    (drop (Z.to_nat c) lines).
  rewrite range_split4 by lia.
  rewrite new_content_valid by done.
  rewrite length_take, !range_length by lia.
  repeat split; lia.
Qed.
End ReorderFacts.

(** ** Properties of the reordering *)

Section ReorderClaims.
Context {T : Type}.
Implicit Types lines out : list T.

(** C1.  For offsets with [0 ≤ A ≤ B ≤ C ≤ length lines] the reordered
    output is [lines[0:A] + lines[B:C] + lines[A:B] + lines[C:]]; in
    particular a 10-line file cut at 2, 4 and 8 comes out as lines
    0-1, 4-7, 2-3, 8-9. *)
Theorem reordered_output lines A B C :
  invariant (Z.of_nat (length lines)) A B C →
  new_content lines A B C =
    Ok (range lines 0 (Z.to_nat A)
          ++ range lines (Z.to_nat B) (Z.to_nat C)
          ++ range lines (Z.to_nat A) (Z.to_nat B)
          ++ range lines (Z.to_nat C) (length lines))
  ∧ ∀ l0 l1 l2 l3 l4 l5 l6 l7 l8 l9 : T,
      new_content [l0; l1; l2; l3; l4; l5; l6; l7; l8; l9] 2 4 8 =
        Ok [l0; l1; l4; l5; l6; l7; l2; l3; l8; l9].
Proof.
  intros Hinv. split.
  - rewrite new_content_valid by done.
    by rewrite range_from_0, range_to_end.
  - intros. reflexivity.
Qed.

(** C2.  Under the invariant the output has as many lines as the input
    and is a permutation of it: nothing is changed, lost or
    duplicated. *)
Theorem reorder_preserves_lines lines A B C :
  invariant (Z.of_nat (length lines)) A B C →
  ∃ out, new_content lines A B C = Ok out ∧
         length out = length lines ∧
         out ≡ₚ lines.
Proof.
  intros Hinv.
  destruct (new_content_pieces lines A B C Hinv)
    as (p1 & p2 & m & r & -> & Hout & _).
  exists (p1 ++ m ++ p2 ++ r). split; [done|]. split.
  - rewrite !length_app. lia.
  - apply Permutation_app_head.
    rewrite !app_assoc. apply Permutation_app_tail, Permutation_app_comm.
Qed.

(** C3.  Under the invariant the output consists of Part1 at [0, A),
    Middle at [A, A+(C-B)), Part2 at [A+(C-B), C) and Rest from [C];
    putting these four ranges of the output back in the order Part1,
    Part2, Middle, Rest gives the input again, which is the same
    reordering run on the output with the middle offset moved to
    [A+(C-B)]. *)
Theorem swap_is_own_inverse lines A B C :
  invariant (Z.of_nat (length lines)) A B C →
  ∃ out, new_content lines A B C = Ok out ∧
    let a := Z.to_nat A in
    let b' := Z.to_nat (A + (C - B)) in
    let c := Z.to_nat C in
    range out a b' = range lines (Z.to_nat B) c ∧
    range out b' c = range lines a (Z.to_nat B) ∧
    range out 0 a ++ range out a b' ++ range out b' c
      ++ range out c (length out) = out ∧
    range out 0 a ++ range out b' c ++ range out a b'
      ++ range out c (length out) = lines ∧
    new_content out A (A + (C - B)) C = Ok lines.
Proof.
  intros Hinv. pose proof Hinv as (?&?&?&?).
  destruct (new_content_pieces lines A B C Hinv)
    as (p1 & p2 & m & r & Hl & Hout & L1 & L2 & L3 & _ & Hp2 & Hm & _).
  exists (p1 ++ m ++ p2 ++ r). split; [done|]. simpl.
  assert (Z.to_nat A = length p1) as Ea by done.
  assert (Z.to_nat (A + (C - B)) = (length p1 + length m)%nat) as Eb by lia.
  assert (Z.to_nat C = (length p1 + length m + length p2)%nat) as Ec by lia.
  assert (range (p1 ++ m ++ p2 ++ r) 0 (length p1) = p1) as E1
    by (rewrite range_from_0; apply range_app4_1).
  assert (range (p1 ++ m ++ p2 ++ r) (length p1 + length m + length p2)
            (length (p1 ++ m ++ p2 ++ r)) = r) as E4
    by (rewrite range_to_end; apply range_app4_4).
  rewrite Ea, Eb, Ec, E1, E4, range_app4_2, range_app4_3.
  split_and!; try done.
  - by rewrite <- Ec.
  - by rewrite <- Ea.
  - rewrite new_content_valid
      by (unfold invariant; rewrite !length_app; lia).
    rewrite Ea, Eb, Ec, range_app4_1, range_app4_2, range_app4_3,
      range_app4_4.
    by rewrite Hl.
Qed.

(** C5.  Under the invariant Part1 and Rest stay where they are: the
    first [A] lines of the output are the first [A] lines of the input,
    the lines from [C] on are the same in both, and so is every single
    position outside [A, C). *)
Theorem outer_segments_unchanged lines A B C :
  invariant (Z.of_nat (length lines)) A B C →
  ∃ out, new_content lines A B C = Ok out ∧
    take (Z.to_nat A) out = take (Z.to_nat A) lines ∧
    drop (Z.to_nat C) out = drop (Z.to_nat C) lines ∧
    ∀ k : nat, (k < Z.to_nat A ∨ Z.to_nat C ≤ k)%nat →
               out !! k = lines !! k.
Proof.
  intros Hinv.
  destruct (new_content_pieces lines A B C Hinv)
    as (p1 & p2 & m & r & -> & Hout & L1 & L2 & L3 & _).
  exists (p1 ++ m ++ p2 ++ r). split; [done|].
  assert (take (Z.to_nat A) (p1 ++ m ++ p2 ++ r)
          = take (Z.to_nat A) (p1 ++ p2 ++ m ++ r)) as Htake.
  { rewrite <- L1. by rewrite !take_app_length. }
  assert (drop (Z.to_nat C) (p1 ++ m ++ p2 ++ r)
          = drop (Z.to_nat C) (p1 ++ p2 ++ m ++ r)) as Hdrop.
  { rewrite <- L3 at 2. rewrite range_app4_4.
    replace (Z.to_nat C) with (length p1 + length m + length p2)%nat by lia.
    by rewrite range_app4_4. }
  split_and!; try done.
  intros k [Hk|Hk].
  - rewrite <- (lookup_take_lt (p1 ++ m ++ p2 ++ r) (Z.to_nat A) k) by done.
    rewrite <- (lookup_take_lt (p1 ++ p2 ++ m ++ r) (Z.to_nat A) k) by done.
    by rewrite Htake.
  - replace k with (Z.to_nat C + (k - Z.to_nat C))%nat by lia.
    rewrite <- !lookup_drop. by rewrite Hdrop.
Qed.

(** C10.  With an empty Middle ([B = C]) and the invariant, the
    reordering returns the input unchanged. *)
Theorem empty_middle_identity lines A B C :
  invariant (Z.of_nat (length lines)) A B C →
  B = C →
  new_content lines A B C = Ok lines.
Proof.
  intros Hinv ->. pose proof Hinv as (?&?&?&?).
  rewrite new_content_valid by done.
  rewrite (range_empty lines (Z.to_nat C) (Z.to_nat C)) by lia. simpl.
  rewrite <- (range_split4 lines (Z.to_nat A) (Z.to_nat C) (Z.to_nat C))
    at 4 by lia.
  by rewrite (range_empty lines (Z.to_nat C) (Z.to_nat C)) by lia.
Qed.

(** C6.  For all integer offsets, valid or not, the four slices and
    their concatenation return normally.  Each segment is the range
    between the adjusted offsets, so offsets that cross or lie outside
    the list give shorter or empty segments ([-] on [nat] stops at 0)
    and never an out-of-range fault. *)
Theorem slicing_never_raises lines A B C :
  let len := Z.of_nat (length lines) in
  let a := Z.to_nat (Slice.adjust_index len A) in
  let b := Z.to_nat (Slice.adjust_index len B) in
  let c := Z.to_nat (Slice.adjust_index len C) in
  ∃ p1 p2 m r,
    part1 lines A = Ok p1 ∧ part2 lines A B = Ok p2 ∧
    middle lines B C = Ok m ∧ rest lines C = Ok r ∧
    new_content lines A B C = Ok (p1 ++ m ++ p2 ++ r) ∧
    p1 = range lines 0 a ∧ p2 = range lines a b ∧
    m = range lines b c ∧ r = range lines c (length lines) ∧
    length p1 = a ∧ length p2 = (b - a)%nat ∧
    length m = (c - b)%nat ∧ length r = (length lines - c)%nat.
Proof.
  intros len a b c.
  assert (0 ≤ len) by lia.
  pose proof (adjust_index_bounds len A).
  pose proof (adjust_index_bounds len B).
  pose proof (adjust_index_bounds len C).
  exists (range lines 0 a), (range lines a b), (range lines b c),
    (range lines c (length lines)).
  unfold part1, part2, middle, rest.
  rewrite new_content_total, !slice_total. simpl.
  change (Z.to_nat 0) with 0%nat. rewrite Nat2Z.id.
  fold len a b c.
  rewrite !range_length by lia.
  rewrite range_from_0, range_to_end.
  split_and!; try done. lia.
Qed.

(** C7.  When [A = B], Part2 is empty and the output is Part1, Middle,
    Rest in this order; every line of the input occurs in it, and under
    the invariant it is the input itself. *)
Theorem empty_part2_drops_nothing lines A B C :
  A = B →
  part2 lines A B = Ok [] ∧
  ∃ p1 m r,
    part1 lines A = Ok p1 ∧ middle lines B C = Ok m ∧
    rest lines C = Ok r ∧
    new_content lines A B C = Ok (p1 ++ m ++ r) ∧
    (∀ x, x ∈ lines → x ∈ p1 ++ m ++ r) ∧
    (invariant (Z.of_nat (length lines)) A B C → p1 ++ m ++ r = lines).
Proof.
  intros <-.
  unfold part1, part2, middle, rest.
  rewrite new_content_total, !slice_total. simpl.
  change (Z.to_nat 0) with 0%nat. rewrite Nat2Z.id.
  set (a := Z.to_nat (Slice.adjust_index _ A)).
  set (c := Z.to_nat (Slice.adjust_index _ C)).
  rewrite (range_empty lines a a) by lia. simpl.
  split; [done|].
  exists (range lines 0 a), (range lines a c),
    (range lines c (length lines)).
  rewrite range_from_0, range_to_end.
  split_and!; try done.
  - intros x Hx.
    destruct (decide (a ≤ c)%nat) as [Hac|Hac].
    + assert (c ≤ length lines)%nat.
      { pose proof (adjust_index_bounds (Z.of_nat (length lines)) C).
        subst c. lia. }
      rewrite <- (range_split4 lines a a c) in Hx by lia.
      by rewrite (range_empty lines a a) in Hx by lia.
    + rewrite <- (take_drop a lines) in Hx.
      apply elem_of_app in Hx as [Hx|Hx].
      * apply elem_of_app. by left.
      * rewrite !elem_of_app. right. right.
        apply (elem_of_drop_le lines c a); [lia|done].
  - intros (?&?&?&?). subst a c.
    rewrite !adjust_index_in_range by lia.
    rewrite <- (range_split4 lines (Z.to_nat A) (Z.to_nat A) (Z.to_nat C))
      at 4 by lia.
    by rewrite (range_empty lines (Z.to_nat A) (Z.to_nat A)) by lia.
Qed.
End ReorderClaims.

(** C4.  Running the reordering a second time with the same offsets does
    not give back the original: for the three lines a, b, c and offsets
    0, 1, 3 the first run gives b, c, a and the second c, a, b. *)
Theorem reorder_twice_not_original :
  ∃ (lines : list string) (A B C : Z) (out out2 : list string),
    invariant (Z.of_nat (length lines)) A B C ∧
    new_content lines A B C = Ok out ∧
    new_content out A B C = Ok out2 ∧
    out2 ≠ lines ∧ out2 ≠ out.
Proof.
  exists ["a"; "b"; "c"], 0, 1, 3, ["b"; "c"; "a"], ["c"; "a"; "b"].
  split_and!; done.
Qed.

(** ** The script *)

Lemma string_app_assoc (s1 s2 s3 : string) :
  (s1 +:+ s2) +:+ s3 = s1 +:+ (s2 +:+ s3).
Proof.
  induction s1 as [|ch s1 IH]; [done|].
  exact (f_equal (String ch) IH).
Qed.

Lemma string_app_nil_r (s : string) : s +:+ "" = s.
Proof.
  induction s as [|ch s IH]; [done|].
  exact (f_equal (String ch) IH).
Qed.

(** Reading the lines and writing them back gives the same text. *)
Lemma joined_readlines (s : string) : joined (readlines s) = s.
Proof.
  induction s as [|ch s IH]; simpl; [done|].
  destruct (Ascii.eqb ch newline); simpl.
  - by rewrite IH.
  - destruct (readlines s) as [|l ls]; simpl in *; by rewrite <- IH.
Qed.

Lemma writelines_spec path ls w f :
  fs w !! path = Some f →
  writelines path ls w =
    (World (<[path := File (content f +:+ joined ls) (readable f) (writable f)]>
              (fs w)) (stdout w), Ok ()).
Proof.
  revert w f. induction ls as [|l ls IH]; intros w f Hf; simpl.
  - rewrite string_app_nil_r. unfold mret, M_ret.
    destruct f, w; simpl in *. by rewrite insert_id.
  - unfold mbind, M_bind, write. rewrite Hf.
    erewrite IH by (simpl; apply lookup_insert_eq). simpl.
    by rewrite insert_insert_eq, string_app_assoc.
Qed.

(** The four ways the script can run, by the state of the file. *)
Lemma main_missing w :
  fs w !! filepath = None → main w = (w, Raise FileNotFoundError).
Proof. intros Hf. unfold main, mbind, M_bind, open_r. by rewrite Hf. Qed.

Lemma main_unreadable w f :
  fs w !! filepath = Some f → readable f = false →
  main w = (w, Raise PermissionError).
Proof.
  intros Hf Hr. unfold main, mbind, M_bind, open_r. by rewrite Hf, Hr.
Qed.

Lemma main_unwritable w f :
  fs w !! filepath = Some f → readable f = true → writable f = false →
  main w = (w, Raise PermissionError).
Proof.
  intros Hf Hr Hw. unfold main, mbind, M_bind, open_r, lift, open_w.
  rewrite Hf, Hr, new_content_total, Hf, Hw. done.
Qed.

Lemma main_ok w f :
  fs w !! filepath = Some f → readable f = true → writable f = true →
  ∃ out,
    new_content (readlines (content f)) idx_part2 idx_part3 idx_part11
      = Ok out ∧
    main w = (World (<[filepath := File (joined out) true true]> (fs w))
                    (stdout w +:+ message), Ok ()).
Proof.
  intros Hf Hr Hw. eexists. split; [apply new_content_total|].
  unfold main, mbind, M_bind, open_r, lift, open_w.
  rewrite Hf, Hr, new_content_total, Hf, Hw.
  erewrite writelines_spec by (simpl; apply lookup_insert_eq). simpl.
  rewrite insert_insert_eq, Hr. reflexivity.
Qed.

(** C8.  When the file is missing, or present but not readable, the
    script stops in the opening for reading with an [OSError]
    ([FileNotFoundError] for a missing file, [PermissionError] for an
    unreadable one); the world it leaves, files and standard output, is
    the one it started in. *)
Theorem missing_or_unreadable_fails (w : world) :
  fs w !! filepath = None ∨
    (∃ f, fs w !! filepath = Some f ∧ readable f = false) →
  ∃ e, main w = (w, Raise e) ∧
       is_OSError e = true ∧
       (fs w !! filepath = None → e = FileNotFoundError) ∧
       (is_Some (fs w !! filepath) → e = PermissionError).
Proof.
  intros [Hf|(f & Hf & Hr)].
  - exists FileNotFoundError. rewrite (main_missing w Hf), Hf.
    by split_and!.
  - exists PermissionError. rewrite (main_unreadable w f Hf Hr), Hf.
    by split_and!.
Qed.

(** C9.  A run that ends normally has appended to standard output the
    line "Successfully reordered migration file." with its newline, and
    nothing else. *)
Theorem confirmation_line (w w' : world) :
  main w = (w', Ok ()) →
  stdout w' =
    stdout w +:+ "Successfully reordered migration file."
             +:+ String newline "".
Proof.
  intros Hrun.
  destruct (fs w !! filepath) as [f|] eqn:Hf.
  - destruct (readable f) eqn:Hr.
    + destruct (writable f) eqn:Hw.
      * destruct (main_ok w f Hf Hr Hw) as (out & _ & Hmain).
        rewrite Hmain in Hrun. by injection Hrun as <-.
      * by rewrite (main_unwritable w f Hf Hr Hw) in Hrun.
    + by rewrite (main_unreadable w f Hf Hr) in Hrun.
  - by rewrite (main_missing w Hf) in Hrun.
Qed.

(** A failing run leaves files and standard output as they were. *)
Lemma failure_prints_nothing (w w' : world) (e : exn) :
  main w = (w', Raise e) → w' = w.
Proof.
  intros Hrun.
  destruct (fs w !! filepath) as [f|] eqn:Hf.
  - destruct (readable f) eqn:Hr.
    + destruct (writable f) eqn:Hw.
      * destruct (main_ok w f Hf Hr Hw) as (out & _ & Hmain).
        by rewrite Hmain in Hrun.
      * rewrite (main_unwritable w f Hf Hr Hw) in Hrun. by injection Hrun.
    + rewrite (main_unreadable w f Hf Hr) in Hrun. by injection Hrun.
  - rewrite (main_missing w Hf) in Hrun. by injection Hrun.
Qed.

(** X18.  On a file of at least 884 lines the offsets of the script are
    valid and a successful run moves lines 182-883 in front of lines
    45-181: the new text is lines 0-44, 182-883, 45-181 and 884 to the
    end, one after the other. *)
Lemma main_moves_middle w f :
  fs w !! filepath = Some f → readable f = true → writable f = true →
  idx_part11 ≤ Z.of_nat (length (readlines (content f))) →
  let ls := readlines (content f) in
  main w =
    (World (<[filepath :=
                File (joined (range ls 0 45 ++ range ls 182 884
                                ++ range ls 45 182
                                ++ range ls 884 (length ls)))
                     true true]> (fs w))
           (stdout w +:+ message), Ok ()).
Proof.
  intros Hf Hr Hw Hlen ls. subst ls.
  destruct (main_ok w f Hf Hr Hw) as (out & Hout & ->).
  rewrite new_content_valid in Hout
    by (unfold invariant, idx_part2, idx_part3, idx_part11 in *; lia).
  injection Hout as <-.
  by rewrite range_from_0, range_to_end.
Qed.

(** ** Concrete runs *)

Lemma reordered_output_witness :
  invariant 10 2 4 8 ∧
  new_content ten_lines 2 4 8 =
    Ok ["l0"; "l1"; "l4"; "l5"; "l6"; "l7"; "l2"; "l3"; "l8"; "l9"].
Proof.
  assert (invariant 10 2 4 8) as Hinv by (unfold invariant; lia).
  split; [exact Hinv|].
  exact (proj1 (reordered_output ten_lines 2 4 8 Hinv)).
Defined.

Lemma reorder_preserves_lines_witness :
  invariant 10 2 4 8 ∧
  ∃ out, new_content ten_lines 2 4 8 = Ok out ∧
         length out = 10%nat ∧ out ≡ₚ ten_lines.
Proof.
  assert (invariant 10 2 4 8) as Hinv by (unfold invariant; lia).
  split; [exact Hinv|].
  exact (reorder_preserves_lines ten_lines 2 4 8 Hinv).
Defined.

Lemma swap_is_own_inverse_witness :
  invariant 10 2 4 8 ∧
  ∃ out, new_content ten_lines 2 4 8 = Ok out ∧
         new_content out 2 6 8 = Ok ten_lines.
Proof.
  assert (invariant 10 2 4 8) as Hinv by (unfold invariant; lia).
  split; [exact Hinv|].
  destruct (swap_is_own_inverse ten_lines 2 4 8 Hinv)
    as (out & Hout & _ & _ & _ & _ & Hback).
  exists out. split; [exact Hout | exact Hback].
Defined.

Lemma outer_segments_unchanged_witness :
  invariant 10 2 4 8 ∧
  ∃ out, new_content ten_lines 2 4 8 = Ok out ∧
         take 2 out = ["l0"; "l1"] ∧ drop 8 out = ["l8"; "l9"].
Proof.
  assert (invariant 10 2 4 8) as Hinv by (unfold invariant; lia).
  split; [exact Hinv|].
  destruct (outer_segments_unchanged ten_lines 2 4 8 Hinv)
    as (out & Hout & Htake & Hdrop & _).
  exists out. split; [exact Hout|]. split; [exact Htake | exact Hdrop].
Defined.

Lemma empty_part2_drops_nothing_witness :
  part2 ten_lines 4 4 = Ok [] ∧
  new_content ten_lines 4 4 8 = Ok ten_lines.
Proof.
  assert (invariant 10 4 4 8) as Hinv by (unfold invariant; lia).
  destruct (empty_part2_drops_nothing ten_lines 4 4 8 eq_refl)
    as (Hp2 & p1 & m & r & _ & _ & _ & Hout & _ & Hsame).
  split; [exact Hp2|].
  rewrite Hout. f_equal. exact (Hsame Hinv).
Defined.

Lemma empty_middle_identity_witness :
  invariant 10 2 4 4 ∧ new_content ten_lines 2 4 4 = Ok ten_lines.
Proof.
  assert (invariant 10 2 4 4) as Hinv by (unfold invariant; lia).
  split; [exact Hinv|].
  exact (empty_middle_identity ten_lines 2 4 4 Hinv eq_refl).
Defined.

Lemma missing_or_unreadable_fails_witness :
  main no_file = (no_file, Raise FileNotFoundError) ∧
  main locked_file = (locked_file, Raise PermissionError).
Proof.
  split.
  - destruct (missing_or_unreadable_fails no_file (or_introl eq_refl))
      as (e & Hrun & _ & Hmissing & _).
    rewrite Hrun. f_equal. f_equal. exact (Hmissing eq_refl).
  - assert (fs locked_file !! filepath
            = Some (File "select 1;" false true)) as Hf by reflexivity.
    destruct (missing_or_unreadable_fails locked_file
                (or_intror (ex_intro _ _ (conj Hf eq_refl))))
      as (e & Hrun & _ & _ & Hlocked).
    rewrite Hrun. f_equal. f_equal. exact (Hlocked (ex_intro _ _ Hf)).
Defined.

Lemma confirmation_line_witness :
  stdout (main three_line_file).1 =
    "Successfully reordered migration file." +:+ String newline "".
Proof.
  assert (main three_line_file = ((main three_line_file).1, Ok ())) as Hrun
    by reflexivity.
  exact (confirmation_line three_line_file _ Hrun).
Defined.

(** Offsets that cross are accepted as well: here Part2 and Middle are
    empty and the first two lines come out twice. *)
Example crossed_offsets_repeat_lines :
  new_content ["a"; "b"; "c"] 2 1 0 = Ok ["a"; "b"; "a"; "b"; "c"].
Proof. reflexivity. Qed.

(** Negative offsets count from the end of the list. *)
Example negative_offsets_from_end :
  new_content ["a"; "b"; "c"; "d"] (-3) (-2) (-1) = Ok ["a"; "c"; "b"; "d"].
Proof. reflexivity. Qed.

(** ** Further properties of the reordering *)

Section ReorderMore.
Context {T : Type}.
Implicit Types lines out : list T.

Lemma adjust_index_nonneg len i :
  0 ≤ len → 0 ≤ i → Slice.adjust_index len i = Z.min i len.
Proof.
  intros ? ?. unfold Slice.adjust_index.
  destruct (Z.ltb_spec i 0), (Z.leb_spec len i); lia.
Qed.

(** With adjusted offsets in order the output is the input with two
    neighbouring ranges exchanged. *)
Lemma swapped_ranges_Permutation lines (i j k : nat) :
  (i ≤ j ≤ k)%nat → (k ≤ length lines)%nat →
  take i lines ++ range lines j k ++ range lines i j ++ drop k lines
    ≡ₚ lines.
Proof.
  intros ? ?.
  rewrite <- (range_split4 lines i j k) at 5 by lia.
  apply Permutation_app_head.
  rewrite !app_assoc. apply Permutation_app_tail, Permutation_app_comm.
Qed.

(** Whatever the three cut points, the four pieces put together contain
    every item of the list at least as often as the list does. *)
Lemma pieces_cover lines (i j k : nat) :
  (k ≤ length lines)%nat →
  lines ⊆+ take i lines ++ range lines j k ++ range lines i j
             ++ drop k lines.
Proof.
  intros Hk.
  destruct (decide (i ≤ j)%nat) as [Hij|Hij].
  - destruct (decide (j ≤ k)%nat) as [Hjk|Hjk].
    + apply Permutation_submseteq. symmetry.
      by apply swapped_ranges_Permutation.
    + rewrite (range_empty lines j k) by lia. simpl.
      rewrite app_assoc, <- range_from_0, (range_glue lines 0 i j) by lia.
      rewrite range_from_0.
      rewrite <- (take_drop k lines) at 1.
      apply submseteq_app; [|done].
      replace k with (k `min` j)%nat at 1 by lia.
      rewrite <- take_take. apply submseteq_take.
  - rewrite (range_empty lines i j) by lia. simpl.
    destruct (decide (k ≤ i)%nat) as [Hki|Hki].
    + rewrite <- (take_drop k lines) at 1.
      apply submseteq_app.
      * replace k with (k `min` i)%nat at 1 by lia.
        rewrite <- take_take. apply submseteq_take.
      * by apply submseteq_inserts_l.
    + rewrite <- (range_glue lines j i k) by lia.
      rewrite <- (range_split4 lines i i k) at 1 by lia.
      rewrite (range_empty lines i i) by lia. simpl.
      apply submseteq_skips_l.
      rewrite <- app_assoc. by apply submseteq_inserts_l.
Qed.

Lemma new_content_ordered lines a b c :
  0 ≤ a → a ≤ b → b ≤ c →
  ∃ out, new_content lines a b c = Ok out ∧ out ≡ₚ lines.
Proof.
  intros ? ? ?. rewrite new_content_total.
  rewrite !adjust_index_nonneg by lia.
  eexists. split; [done|].
  apply swapped_ranges_Permutation; lia.
Qed.

Lemma new_content_short lines a b c :
  0 ≤ a → a ≤ b → b ≤ c → Z.of_nat (length lines) ≤ b →
  new_content lines a b c = Ok lines.
Proof.
  intros ? ? ? ?. rewrite new_content_total.
  rewrite !adjust_index_nonneg by lia.
  replace (Z.to_nat (b `min` Z.of_nat (length lines))) with (length lines)
    by lia.
  replace (Z.to_nat (c `min` Z.of_nat (length lines))) with (length lines)
    by lia.
  rewrite (range_empty lines (length lines) (length lines)) by lia.
  rewrite range_to_end, drop_all. simpl.
  by rewrite app_nil_r, take_drop.
Qed.

(** X1.  Offsets in order [0 ≤ a ≤ b ≤ c] need not fit the list: also
    when some of them lie beyond its end the output has the length of
    the input and is a permutation of it. *)
Theorem ordered_offsets_permute lines a b c :
  0 ≤ a → a ≤ b → b ≤ c →
  ∃ out, new_content lines a b c = Ok out ∧
         length out = length lines ∧ out ≡ₚ lines.
Proof.
  intros Ha Hab Hbc.
  destruct (new_content_ordered lines a b c Ha Hab Hbc) as (out & Hout & Hp).
  exists out. split_and!; [done| |done]. by rewrite Hp.
Qed.

(** X2.  A list that ends at or before the second offset comes back
    unchanged: Middle and Rest are empty and Part1, Part2 are put back in
    their order. *)
Theorem short_input_unchanged lines a b c :
  0 ≤ a → a ≤ b → b ≤ c → Z.of_nat (length lines) ≤ b →
  new_content lines a b c = Ok lines.
Proof. apply new_content_short. Qed.

(** X3.  No offsets, however wrong, make a line disappear: the output
    contains every line of the input at least as often as the input
    does, so it is never shorter. *)
Theorem no_line_lost lines a b c :
  ∃ out, new_content lines a b c = Ok out ∧
         lines ⊆+ out ∧ (length lines ≤ length out)%nat.
Proof.
  rewrite new_content_total. eexists. split; [done|].
  pose proof (adjust_index_bounds (Z.of_nat (length lines)) c
                ltac:(lia)).
  assert (∀ out, lines ⊆+ out →
            lines ⊆+ out ∧ (length lines ≤ length out)%nat) as Hsub
    by (intros out Hout; split; [done|by apply submseteq_length]).
  apply Hsub, pieces_cover. lia.
Qed.

(** X4.  No offsets make a line appear that the input does not have, and
    the output is at most twice as long as the input. *)
Theorem no_line_invented lines a b c :
  ∃ out, new_content lines a b c = Ok out ∧
         (∀ x, x ∈ out → x ∈ lines) ∧
         (length out ≤ 2 * length lines)%nat.
Proof.
  rewrite new_content_total. eexists. split; [done|].
  set (len := Z.of_nat (length lines)).
  assert (0 ≤ len) as Hlen by lia.
  pose proof (adjust_index_bounds len a Hlen).
  pose proof (adjust_index_bounds len b Hlen).
  pose proof (adjust_index_bounds len c Hlen).
  split.
  - intros x. rewrite !elem_of_app. unfold range.
    intros [Hx|[Hx|[Hx|Hx]]].
    + eapply subseteq_take, Hx.
    + eapply subseteq_drop, subseteq_take, Hx.
    + eapply subseteq_drop, subseteq_take, Hx.
    + eapply subseteq_drop, Hx.
  - rewrite !length_app, length_take, !range_length, length_drop by lia.
    lia.
Qed.

(** X5.  For offsets in order [0 ≤ a ≤ b ≤ c] the four segments, in the
    order Part1, Part2, Middle, Rest, make up the input: they are
    adjacent and share no line. *)
Theorem segments_partition lines a b c :
  0 ≤ a → a ≤ b → b ≤ c →
  ∃ p1 p2 m r,
    part1 lines a = Ok p1 ∧ part2 lines a b = Ok p2 ∧
    middle lines b c = Ok m ∧ rest lines c = Ok r ∧
    p1 ++ p2 ++ m ++ r = lines.
Proof.
  intros ? ? ?. unfold part1, part2, middle, rest.
  rewrite !slice_total. simpl.
  rewrite !adjust_index_nonneg by lia.
  change (Z.to_nat 0) with 0%nat. rewrite Nat2Z.id.
  eexists _, _, _, _. split_and!; try done.
  rewrite range_from_0, range_to_end.
  apply range_split4; lia.
Qed.

(** X6.  For every integer [k], negative or beyond the end included,
    [lines[:k]] followed by [lines[k:]] is the list again. *)
Theorem head_tail_partition lines k :
  ∃ p r, part1 lines k = Ok p ∧ rest lines k = Ok r ∧ p ++ r = lines.
Proof.
  unfold part1, rest. rewrite !slice_total. simpl.
  change (Z.to_nat 0) with 0%nat. rewrite Nat2Z.id.
  eexists _, _. split_and!; try done.
  rewrite range_from_0, range_to_end. apply take_drop.
Qed.
End ReorderMore.

(** ** Lines read and lines written *)

Lemma readlines_nil (s : string) : readlines s = [] → s = EmptyString.
Proof.
  destruct s as [|ch s]; [done|]. simpl.
  destruct (Ascii.eqb ch newline); [done|].
  by destruct (readlines s).
Qed.

Lemma readlines_nonempty (s : string) :
  Forall (λ l, l ≠ EmptyString) (readlines s).
Proof.
  induction s as [|ch s IH]; simpl; [constructor|].
  destruct (Ascii.eqb ch newline).
  - by constructor.
  - destruct (readlines s) as [|l ls].
    + by repeat constructor.
    + inversion_clear IH. by constructor.
Qed.

Lemma readlines_complete (s : string) :
  terminated_text s = true →
  Forall (λ l, complete_line l = true) (readlines s).
Proof.
  induction s as [|ch s IH]; [constructor|].
  intros Hterm.
  change (readlines (String ch s)) with
    (if Ascii.eqb ch newline then String ch EmptyString :: readlines s
     else match readlines s with
          | [] => [String ch EmptyString]
          | l :: ls => String ch l :: ls
          end).
  destruct s as [|ch' s'].
  - simpl in Hterm. rewrite Hterm. constructor; [|constructor].
    simpl. exact Hterm.
  - specialize (IH Hterm).
    destruct (Ascii.eqb ch newline) eqn:Hch.
    + constructor; [|exact IH]. simpl. exact Hch.
    + destruct (readlines (String ch' s')) as [|l ls] eqn:Hls.
      * by apply readlines_nil in Hls.
      * inversion_clear IH as [|? ? Hl Hrest]. constructor; [|done].
        destruct l as [|c0 l0]; [done|].
        change (negb (Ascii.eqb ch newline)
                && complete_line (String c0 l0) = true).
        by rewrite Hch, Hl.
Qed.

Lemma readlines_app_line (l s : string) :
  complete_line l = true → readlines (l +:+ s) = l :: readlines s.
Proof.
  induction l as [|ch l IH]; [done|].
  intros Hl. destruct l as [|c0 l0].
  - simpl in *. by rewrite Hl.
  - change (negb (Ascii.eqb ch newline)
            && complete_line (String c0 l0) = true) in Hl.
    apply andb_true_iff in Hl as [Hch Hl].
    apply negb_true_iff in Hch.
    change (readlines (String ch (String c0 l0 +:+ s))
            = String ch (String c0 l0) :: readlines s).
    change (readlines (String ch (String c0 l0 +:+ s))) with
      (if Ascii.eqb ch newline
       then String ch EmptyString :: readlines (String c0 l0 +:+ s)
       else match readlines (String c0 l0 +:+ s) with
            | [] => [String ch EmptyString]
            | l :: ls => String ch l :: ls
            end).
    by rewrite Hch, (IH Hl).
Qed.

Lemma readlines_joined (ls : list string) :
  Forall (λ l, complete_line l = true) ls → readlines (joined ls) = ls.
Proof.
  induction 1 as [|l ls Hl _ IH]; [done|].
  change (joined (l :: ls)) with (l +:+ joined ls).
  by rewrite readlines_app_line, IH.
Qed.

Lemma string_length_app (s1 s2 : string) :
  String.length (s1 +:+ s2) = (String.length s1 + String.length s2)%nat.
Proof.
  induction s1 as [|ch s1 IH]; [done|].
  exact (f_equal S IH).
Qed.

Lemma joined_length_Permutation (l1 l2 : list string) :
  l1 ≡ₚ l2 → String.length (joined l1) = String.length (joined l2).
Proof.
  induction 1 as [|x l1 l2 _ IH|x y l|l1 l2 l3 _ IH1 _ IH2].
  - done.
  - change (String.length (x +:+ joined l1)
            = String.length (x +:+ joined l2)).
    by rewrite !string_length_app, IH.
  - change (String.length (y +:+ x +:+ joined l)
            = String.length (x +:+ y +:+ joined l)).
    rewrite !string_length_app. lia.
  - by rewrite IH1.
Qed.

(** Every run of the script is of one of four kinds. *)
Lemma main_cases (w : world) :
  (fs w !! filepath = None ∧ main w = (w, Raise FileNotFoundError))
  ∨ (∃ f, fs w !! filepath = Some f ∧ readable f = false ∧
          main w = (w, Raise PermissionError))
  ∨ (∃ f, fs w !! filepath = Some f ∧ readable f = true ∧
          writable f = false ∧ main w = (w, Raise PermissionError))
  ∨ (∃ f out, fs w !! filepath = Some f ∧ readable f = true ∧
        writable f = true ∧
        new_content (readlines (content f)) idx_part2 idx_part3 idx_part11
          = Ok out ∧
        main w = (World (<[filepath := File (joined out) true true]> (fs w))
                        (stdout w +:+ message), Ok ())).
Proof.
  destruct (fs w !! filepath) as [f|] eqn:Hf.
  - destruct (readable f) eqn:Hr.
    + destruct (writable f) eqn:Hw.
      * destruct (main_ok w f Hf Hr Hw) as (out & Hout & Hmain).
        do 3 right. by exists f, out.
      * do 2 right. left. exists f.
        by rewrite (main_unwritable w f Hf Hr Hw).
    + right. left. exists f. by rewrite (main_unreadable w f Hf Hr).
  - left. by rewrite (main_missing w Hf).
Qed.



(** X9.  [readlines] only cuts: the lines put one after the other are
    the text again, and no line is empty. *)
Theorem readlines_cuts_text (s : string) :
  joined (readlines s) = s ∧ Forall (λ l, l ≠ EmptyString) (readlines s).
Proof. split; [apply joined_readlines|apply readlines_nonempty]. Qed.

(** X10.  When the text is empty or ends with a newline, every line read
    is complete: characters other than newline followed by exactly one
    newline. *)
Theorem readlines_terminated_text (s : string) :
  terminated_text s = true →
  Forall (λ l, complete_line l = true) (readlines s).
Proof. apply readlines_complete. Qed.


(** X12.  The script neither creates nor removes a file. *)
Theorem main_keeps_file_set (w : world) :
  dom (fs (main w).1) = dom (fs w).
Proof.
  destruct (main_cases w) as [(_ & ->)|[(f & _ & _ & ->)|
    [(f & _ & _ & _ & ->)|(f & out & Hf & _ & _ & _ & ->)]]]; try done.
  simpl. rewrite dom_insert_L.
  apply subseteq_union_1_L, singleton_subseteq_l, elem_of_dom. eauto.
Qed.




(** X16.  Whatever the length of the file, a successful run leaves in it
    a permutation of its lines, written one after the other, so the text
    keeps its length; the file ends up readable and writable. *)
Theorem main_permutes_lines (w : world) (f : file) :
  fs w !! filepath = Some f → readable f = true → writable f = true →
  ∃ out,
    new_content (readlines (content f)) idx_part2 idx_part3 idx_part11
      = Ok out ∧
    out ≡ₚ readlines (content f) ∧
    fs (main w).1 !! filepath = Some (File (joined out) true true) ∧
    String.length (joined out) = String.length (content f).
Proof.
  intros Hf Hr Hw.
  destruct (main_ok w f Hf Hr Hw) as (out & Hout & ->).
  destruct (new_content_ordered (readlines (content f))
              idx_part2 idx_part3 idx_part11) as (out' & Hout' & Hperm);
    [by unfold idx_part2 | by unfold idx_part2, idx_part3
    | by unfold idx_part3, idx_part11 |].
  rewrite Hout in Hout'. injection Hout' as <-.
  exists out. split_and!; try done.
  - simpl. apply lookup_insert_eq.
  - rewrite (joined_length_Permutation _ _ Hperm). by rewrite joined_readlines.
Qed.

(** X17.  When the text of the file is empty or ends with a newline, the
    lines read from the file after a successful run are exactly the
    reordered lines, a permutation of the lines before. *)
Theorem main_read_back (w : world) (f : file) :
  fs w !! filepath = Some f → readable f = true → writable f = true →
  terminated_text (content f) = true →
  ∃ f', fs (main w).1 !! filepath = Some f' ∧
        new_content (readlines (content f)) idx_part2 idx_part3 idx_part11
          = Ok (readlines (content f')) ∧
        readlines (content f') ≡ₚ readlines (content f).
Proof.
  intros Hf Hr Hw Hterm.
  destruct (main_ok w f Hf Hr Hw) as (out & Hout & ->).
  destruct (new_content_ordered (readlines (content f))
              idx_part2 idx_part3 idx_part11) as (out' & Hout' & Hperm);
    [by unfold idx_part2 | by unfold idx_part2, idx_part3
    | by unfold idx_part3, idx_part11 |].
  rewrite Hout in Hout'. injection Hout' as <-.
  assert (readlines (joined out) = out) as Hback.
  { apply readlines_joined. rewrite Hperm. by apply readlines_complete. }
  eexists. split; [simpl; apply lookup_insert_eq|].
  simpl. by rewrite Hback.
Qed.

(** ** Further concrete runs *)

Lemma three_line_file_lookup :
  fs three_line_file !! filepath = Some (File three_lines_text true true).
Proof. reflexivity. Qed.

Lemma ordered_offsets_permute_witness :
  ∃ out, new_content ten_lines 2 4 12 = Ok out ∧
         length out = 10%nat ∧ out ≡ₚ ten_lines.
Proof.
  exact (ordered_offsets_permute ten_lines 2 4 12
           ltac:(lia) ltac:(lia) ltac:(lia)).
Defined.

Lemma short_input_unchanged_witness :
  new_content ten_lines 2 10 15 = Ok ten_lines.
Proof.
  exact (short_input_unchanged ten_lines 2 10 15
           ltac:(lia) ltac:(lia) ltac:(lia) ltac:(simpl; lia)).
Defined.

Lemma segments_partition_witness :
  ∃ p1 p2 m r,
    part1 ten_lines 2 = Ok p1 ∧ part2 ten_lines 2 4 = Ok p2 ∧
    middle ten_lines 4 12 = Ok m ∧ rest ten_lines 12 = Ok r ∧
    p1 ++ p2 ++ m ++ r = ten_lines.
Proof.
  exact (segments_partition ten_lines 2 4 12
           ltac:(lia) ltac:(lia) ltac:(lia)).
Defined.



Lemma readlines_terminated_text_witness :
  Forall (λ l, complete_line l = true) (readlines three_lines_text).
Proof. exact (readlines_terminated_text three_lines_text eq_refl). Defined.




Lemma main_permutes_lines_witness :
  ∃ out,
    new_content (readlines three_lines_text) idx_part2 idx_part3 idx_part11
      = Ok out ∧
    out ≡ₚ readlines three_lines_text ∧
    fs (main three_line_file).1 !! filepath
      = Some (File (joined out) true true) ∧
    String.length (joined out) = String.length three_lines_text.
Proof.
  exact (main_permutes_lines three_line_file
           (File three_lines_text true true)
           three_line_file_lookup eq_refl eq_refl).
Defined.

Lemma main_read_back_witness :
  ∃ f', fs (main three_line_file).1 !! filepath = Some f' ∧
        new_content (readlines three_lines_text)
          idx_part2 idx_part3 idx_part11 = Ok (readlines (content f')) ∧
        readlines (content f') ≡ₚ readlines three_lines_text.
Proof.
  exact (main_read_back three_line_file
           (File three_lines_text true true)
           three_line_file_lookup eq_refl eq_refl eq_refl).
Defined.

Lemma main_moves_middle_witness :
  let ls := readlines long_text in
  main long_file =
    (World (<[filepath :=
                File (joined (range ls 0 45 ++ range ls 182 884
                                ++ range ls 45 182
                                ++ range ls 884 (length ls)))
                     true true]> (fs long_file))
           (stdout long_file +:+ message), Ok ()).
Proof.
  refine (main_moves_middle long_file (File long_text true true)
            eq_refl eq_refl eq_refl _).
  vm_compute. discriminate.
Defined.
